(** * Goshenite: the full-screen triangle vertex shader

    A shallow embedding of [src/shaders/full_screen.vert.cxx] and the proofs
    of its properties.  The shader is two assignments:

      out_uv = vec2((glvert_VertexIndex << 1) & 2, glvert_VertexIndex & 2);
      glvert_Output.Position = vec4(out_uv * 2.0f + -1., 0., 1.);

    Integers are 32-bit words kept as [Z] with the wrap-around written out,
    floating-point numbers are IEEE-754 values ([spec_float]) rounded to
    nearest-even in their format, and the shader's global variables live in a
    store indexed by their names.  The built-in [glvert_VertexIndex] is
    declared by the shader language, not by this file of the repository; it
    is the read-only input of an invocation and is taken as any integer. *)

From Stdlib Require Import ZArith Reals Lra Lia Bool.
From Stdlib Require Import Floats.SpecFloat.
From stdpp Require Import base option gmap strings list fin_maps.

Local Open Scope Z_scope.

(** ** 32-bit integers *)

Module Int32.

Definition width : Z := 32.
Definition modulus : Z := 2 ^ width.

(** The bit pattern of a mathematical integer in a 32-bit register. *)
Definition wrap (z : Z) : Z := z mod modulus.

(** [x << n].  The shift is only defined for an amount below the width;
    the bits shifted out of the register are lost. *)
Definition shl (x n : Z) : option Z :=
  if (0 <=? n) && (n <? width) then Some (wrap (Z.shiftl x n)) else None.

(** [x & y]. *)
Definition and (x y : Z) : Z := Z.land x y.

End Int32.

(** ** IEEE-754 binary floating point *)

Module Float.

Record format := Format { prec : Z; emax : Z }.

Definition binary32 : format := Format 24 128.
Definition binary64 : format := Format 53 1024.

(** Integer to floating point, rounding to nearest even. *)
Definition of_Z (fmt : format) (z : Z) : spec_float :=
  binary_normalize (prec fmt) (emax fmt) z 0 false.

(** Conversion of a floating-point value to the format [fmt]. *)
Definition convert (fmt : format) (f : spec_float) : spec_float :=
  match f with
  | S754_finite s m e => binary_round (prec fmt) (emax fmt) s m e
  | _ => f
  end.

Definition add (fmt : format) : spec_float -> spec_float -> spec_float :=
  SFadd (prec fmt) (emax fmt).
Definition mul (fmt : format) : spec_float -> spec_float -> spec_float :=
  SFmul (prec fmt) (emax fmt).
Definition sub (fmt : format) : spec_float -> spec_float -> spec_float :=
  SFsub (prec fmt) (emax fmt).
Definition opp : spec_float -> spec_float := SFopp.

Definition is_finite (f : spec_float) : bool :=
  match f with
  | S754_zero _ | S754_finite _ _ _ => true
  | S754_infinity _ | S754_nan => false
  end.

(** The mantissa and exponent are the canonical ones of the format. *)
Definition valid (fmt : format) (f : spec_float) : bool :=
  valid_binary (prec fmt) (emax fmt) f.

(** The real number a finite value stands for: [(-1)^s * m * 2^e]. *)
Definition to_R (f : spec_float) : R :=
  match f with
  | S754_finite s m e =>
      (IZR (cond_Zopp s (Z.pos m)) *
       (if 0 <=? e then IZR (2 ^ e) else / IZR (2 ^ (- e))))%R
  | _ => 0%R
  end.

End Float.

(** [float] is the shader language's 32-bit floating-point type. *)
Abbreviation float := spec_float (only parsing).

(** ** Vectors *)

Record vec2 := Vec2 { v2x : float; v2y : float }.
Record vec4 := Vec4 { v4x : float; v4y : float; v4z : float; v4w : float }.

(** [vec2(int, int)]: each component is converted to [float]. *)
Definition vec2_of_ints (a b : Z) : vec2 :=
  Vec2 (Float.of_Z Float.binary32 a) (Float.of_Z Float.binary32 b).

(** [v * s] and [v + s] for a vector and a scalar: component-wise. *)
Definition vec2_mul_scalar (v : vec2) (s : float) : vec2 :=
  Vec2 (Float.mul Float.binary32 (v2x v) s)
       (Float.mul Float.binary32 (v2y v) s).
Definition vec2_add_scalar (v : vec2) (s : float) : vec2 :=
  Vec2 (Float.add Float.binary32 (v2x v) s)
       (Float.add Float.binary32 (v2y v) s).

(** [vec4(vec2, float, float)]. *)
Definition vec4_of_vec2 (v : vec2) (z w : float) : vec4 :=
  Vec4 (v2x v) (v2y v) z w.

(** ** Literals of the source *)

(** [2.0f] *)
Definition lit_2_0f : float := Float.of_Z Float.binary32 2.
(** [-1.]: the [double] literal [1.] negated, then converted to the element
    type of the [vec2] it is added to. *)
Definition lit_m1 : float :=
  Float.convert Float.binary32 (Float.opp (Float.of_Z Float.binary64 1)).
(** [0.] and [1.], converted to the element type of the [vec4]. *)
Definition lit_0 : float :=
  Float.convert Float.binary32 (Float.of_Z Float.binary64 0).
Definition lit_1 : float :=
  Float.convert Float.binary32 (Float.of_Z Float.binary64 1).

(** ** The shader's variables *)

Inductive value :=
| VInt (n : Z)
| VFloat (f : float)
| VVec2 (v : vec2)
| VVec4 (v : vec4).

(** The two variables the source assigns. *)
Definition out_uv : string := "out_uv".
Definition glvert_Output_Position : string := "glvert_Output.Position".

Definition read_vec2 (σ : gmap string value) (x : string) : option vec2 :=
  match σ !! x with
  | Some (VVec2 v) => Some v
  | _ => None
  end.

Definition read_vec4 (σ : gmap string value) (x : string) : option vec4 :=
  match σ !! x with
  | Some (VVec4 v) => Some v
  | _ => None
  end.

(** ** The shader *)

(** [main] runs one invocation: [glvert_VertexIndex] is the built-in input of
    the invocation, [σ] the variables as the invocation finds them.  The
    second assignment reads [out_uv] back from the store.  The result is
    [None] when an operation is undefined. *)
Definition main (glvert_VertexIndex : Z) (σ : gmap string value)
  : option (gmap string value) :=
  a ← Int32.shl glvert_VertexIndex 1;
  let σ1 :=
    <[out_uv := VVec2 (vec2_of_ints (Int32.and a 2)
                                    (Int32.and glvert_VertexIndex 2))]> σ in
  uv ← read_vec2 σ1 out_uv;
  Some (<[glvert_Output_Position :=
            VVec4 (vec4_of_vec2
                     (vec2_add_scalar (vec2_mul_scalar uv lit_2_0f) lit_m1)
                     lit_0 lit_1)]> σ1).

(** What the later stages read from the store: the interpolant and the
    position. *)
Definition observe (σ : gmap string value) : option (vec2 * vec4) :=
  uv ← read_vec2 σ out_uv;
  pos ← read_vec4 σ glvert_Output_Position;
  Some (uv, pos).

(** The outputs of one invocation started on the store [σ]. *)
Definition shader_outputs (glvert_VertexIndex : Z) (σ : gmap string value)
  : option (vec2 * vec4) :=
  main glvert_VertexIndex σ ≫= observe.

(** A sequence of invocations run one after the other on the same variables,
    each finding what the previous one left; the outputs are collected after
    every invocation. *)
Fixpoint run (indices : list Z) (σ : gmap string value)
  : option (list (vec2 * vec4)) :=
  match indices with
  | [] => Some []
  | i :: rest =>
      σ' ← main i σ;
      o ← observe σ';
      os ← run rest σ';
      Some (o :: os)
  end.

(** The draw the host issues: three vertices, indices 0, 1 and 2. *)
Definition full_screen_draw (σ : gmap string value)
  : option (list (vec2 * vec4)) :=
  run [0; 1; 2] σ.

(** The indices of a full-screen draw. *)
Definition valid_index (idx : Z) : Prop := 0 <= idx <= 2.

(** The shader in closed form, from the two low bits of the index. *)
Definition bit2 (b : bool) : Z := if b then 2 else 0.

Definition uv_of_bits (b0 b1 : bool) : vec2 :=
  vec2_of_ints (bit2 b0) (bit2 b1).

Definition position_of_uv (uv : vec2) : vec4 :=
  vec4_of_vec2 (vec2_add_scalar (vec2_mul_scalar uv lit_2_0f) lit_m1)
               lit_0 lit_1.

(** The invocation as a function of the index alone. *)
Definition vertex (idx : Z) : vec2 * vec4 :=
  let uv := uv_of_bits (Z.testbit idx 0) (Z.testbit idx 1) in
  (uv, position_of_uv uv).

(** The same expression with the addition of [-1.] carried out in [double]
    and the sum converted back, the other reading of a [float] vector plus a
    [double] scalar. *)
Definition scale_bias_in_double (x : float) : float :=
  Float.convert Float.binary32
    (Float.add Float.binary64
       (Float.convert Float.binary64 (Float.mul Float.binary32 x lit_2_0f))
       (Float.opp (Float.of_Z Float.binary64 1))).

Definition vec2_finite (v : vec2) : bool :=
  Float.is_finite (v2x v) && Float.is_finite (v2y v).
Definition vec4_finite (p : vec4) : bool :=
  Float.is_finite (v4x p) && Float.is_finite (v4y p) &&
  Float.is_finite (v4z p) && Float.is_finite (v4w p).
Definition vec2_valid (v : vec2) : bool :=
  Float.valid Float.binary32 (v2x v) && Float.valid Float.binary32 (v2y v).
Definition vec4_valid (p : vec4) : bool :=
  Float.valid Float.binary32 (v4x p) && Float.valid Float.binary32 (v4y p) &&
  Float.valid Float.binary32 (v4z p) && Float.valid Float.binary32 (v4w p).

(** ** Binary32 constants of the output table *)

Definition F32_0 : float := S754_zero false.
Definition F32_1 : float := S754_finite false 8388608 (-23).
Definition F32_2 : float := S754_finite false 8388608 (-22).
Definition F32_3 : float := S754_finite false 12582912 (-22).
Definition F32_m1 : float := S754_finite true 8388608 (-23).

(** ** The derivation of the UV coordinate, as specified *)

(** The derivation in the words of the specification, on mathematical
    integers: [a] is the index shifted left by one bit and masked with 2,
    [b] the index masked with 2. *)
Definition uv_derivation_spec (index : Z) : Z * Z :=
  let a := Z.land (Z.shiftl index 1) 2 in
  let b := Z.land index 2 in
  (a, b).

(** ** Plane geometry over the reals *)

Definition point : Type := R * R.

Definition uv_point (v : vec2) : point :=
  (Float.to_R (v2x v), Float.to_R (v2y v)).
Definition clip_point (p : vec4) : point :=
  (Float.to_R (v4x p), Float.to_R (v4y p)).

Section Geometry.
Local Open Scope R_scope.

(** The closed triangle [a b c]: the convex combinations of its vertices. *)
Definition in_triangle (a b c p : point) : Prop :=
  exists l1 l2 l3 : R,
    0 <= l1 /\ 0 <= l2 /\ 0 <= l3 /\ l1 + l2 + l3 = 1 /\
    fst p = l1 * fst a + l2 * fst b + l3 * fst c /\
    snd p = l1 * snd a + l2 * snd b + l3 * snd c.

(** The closed segment [a b]. *)
Definition on_segment (a b p : point) : Prop :=
  exists t : R,
    0 <= t <= 1 /\
    fst p = (1 - t) * fst a + t * fst b /\
    snd p = (1 - t) * snd a + t * snd b.

(** The closed axis-parallel box [lo, hi] x [lo, hi]. *)
Definition in_box (lo hi : R) (p : point) : Prop :=
  lo <= fst p <= hi /\ lo <= snd p <= hi.

(** Edge function: twice the signed area of [a b p]. *)
Definition edge (a b p : point) : R :=
  (fst b - fst a) * (snd p - snd a) - (snd b - snd a) * (fst p - fst a).

Definition collinear (a b c : point) : Prop := edge a b c = 0.
Definition area (a b c : point) : R := Rabs (edge a b c) / 2.

(** The point-in-triangle test by the signs of the three edge functions,
    for a triangle given counter-clockwise. *)
Definition edge_test (a b c p : point) : Prop :=
  0 <= edge a b p /\ 0 <= edge b c p /\ 0 <= edge c a p.

End Geometry.

(** ** Interpolation across a primitive *)

Section Interpolation.
Local Open Scope R_scope.

(** The affine combination of three per-vertex values with the barycentric
    weights [l0 l1 l2], as the rasterizer forms it at a point of the
    primitive. *)
Definition interpolate_scalar (l0 l1 l2 a b c : R) : R :=
  l0 * a + l1 * b + l2 * c.

Definition interpolate (l0 l1 l2 : R) (a b c : point) : point :=
  (interpolate_scalar l0 l1 l2 (fst a) (fst b) (fst c),
   interpolate_scalar l0 l1 l2 (snd a) (snd b) (snd c)).

End Interpolation.

(** * Properties *)

(** ** Bits of the index *)

Lemma land_2_testbit x : Z.land x 2 = bit2 (Z.testbit x 1).
Proof.
  apply Z.bits_inj'; intros n Hn.
  rewrite Z.land_spec.
  change 2 with (2 ^ 1) at 1. rewrite Z.pow2_bits_eqb by lia.
  destruct (Z.eqb_spec 1 n) as [<-|Hne].
  - rewrite andb_true_r. destruct (Z.testbit x 1); reflexivity.
  - rewrite andb_false_r. symmetry.
    destruct (Z.testbit x 1); cbn [bit2].
    + change 2 with (2 ^ 1). rewrite Z.pow2_bits_eqb by lia.
      apply Z.eqb_neq; lia.
    + apply Z.bits_0.
Qed.

Lemma testbit_wrap_shiftl_1 x :
  Z.testbit (Int32.wrap (Z.shiftl x 1)) 1 = Z.testbit x 0.
Proof.
  unfold Int32.wrap, Int32.modulus, Int32.width.
  rewrite Z.mod_pow2_bits_low by lia.
  rewrite Z.shiftl_spec by lia. reflexivity.
Qed.

Lemma testbit_mod_4 x n : 0 <= n < 2 -> Z.testbit (x mod 4) n = Z.testbit x n.
Proof.
  intros Hn. change 4 with (2 ^ 2). apply Z.mod_pow2_bits_low. lia.
Qed.

(** The shift of the source, by one bit, is always defined. *)
Lemma shl_1_defined x : Int32.shl x 1 = Some (Int32.wrap (Z.shiftl x 1)).
Proof. reflexivity. Qed.

(** ** The shader in closed form *)

Lemma out_uv_neq_position : out_uv <> glvert_Output_Position.
Proof. discriminate. Qed.

Lemma main_closed_form idx (σ : gmap string value) :
  main idx σ =
  Some (<[glvert_Output_Position :=
            VVec4 (position_of_uv
                     (uv_of_bits (Z.testbit idx 0) (Z.testbit idx 1)))]>
          (<[out_uv :=
               VVec2 (uv_of_bits (Z.testbit idx 0) (Z.testbit idx 1))]> σ)).
Proof.
  unfold main. rewrite shl_1_defined.
  cbn [mbind option_bind]; cbv zeta.
  unfold read_vec2. rewrite lookup_insert_eq. cbn [mbind option_bind].
  unfold Int32.and.
  rewrite !land_2_testbit, testbit_wrap_shiftl_1. reflexivity.
Qed.

Lemma observe_after_writes (σ : gmap string value) uv pos :
  observe (<[glvert_Output_Position := VVec4 pos]>
             (<[out_uv := VVec2 uv]> σ)) = Some (uv, pos).
Proof.
  unfold observe, read_vec2, read_vec4.
  rewrite (lookup_insert_ne _ glvert_Output_Position out_uv)
    by (symmetry; apply out_uv_neq_position).
  rewrite !lookup_insert_eq. reflexivity.
Qed.

Lemma shader_outputs_closed_form idx (σ : gmap string value) :
  shader_outputs idx σ = Some (vertex idx).
Proof.
  unfold shader_outputs. rewrite main_closed_form.
  cbn [mbind option_bind]. apply observe_after_writes.
Qed.

(** The outputs do not depend on what the variables held before. *)
Lemma shader_outputs_store_irrelevant idx (σ σ' : gmap string value) :
  shader_outputs idx σ = shader_outputs idx σ'.
Proof. rewrite !shader_outputs_closed_form. reflexivity. Qed.

Lemma run_map_vertex indices :
  forall σ : gmap string value, run indices σ = Some (map vertex indices).
Proof.
  induction indices as [|i rest IH]; intros σ; [reflexivity|].
  cbn [run map]. rewrite main_closed_form.
  cbn [mbind option_bind]. rewrite observe_after_writes.
  cbn [mbind option_bind]. rewrite IH. reflexivity.
Qed.

(** ** Values of the outputs *)

(** Evaluates the integers under [IZR]. *)
Ltac eval_IZR :=
  repeat match goal with
         | |- context [IZR ?z] =>
             lazymatch z with
             | Z0 => fail
             | Zpos _ => fail
             | Zneg _ => fail
             | _ => let z' := eval vm_compute in z in change z with z'
             end
         end.

Lemma to_R_constants :
  (Float.to_R F32_0 = 0 /\ Float.to_R F32_1 = 1 /\ Float.to_R F32_2 = 2 /\
   Float.to_R F32_3 = 3 /\ Float.to_R F32_m1 = -1)%R.
Proof.
  unfold Float.to_R, F32_0, F32_1, F32_2, F32_3, F32_m1.
  cbn [cond_Zopp Z.leb Z.compare]. eval_IZR.
  repeat split; lra.
Qed.

Lemma to_R_F32_0 : Float.to_R F32_0 = 0%R.
Proof. apply to_R_constants. Qed.
Lemma to_R_F32_1 : Float.to_R F32_1 = 1%R.
Proof. apply to_R_constants. Qed.
Lemma to_R_F32_2 : Float.to_R F32_2 = 2%R.
Proof. apply to_R_constants. Qed.
Lemma to_R_F32_3 : Float.to_R F32_3 = 3%R.
Proof. apply to_R_constants. Qed.
Lemma to_R_F32_m1 : Float.to_R F32_m1 = (-1)%R.
Proof. apply to_R_constants. Qed.

Create Rewrite HintDb f32.
#[local] Hint Rewrite to_R_F32_0 to_R_F32_1 to_R_F32_2 to_R_F32_3 to_R_F32_m1
  : f32.

(** The literals of the source are the binary32 numbers 2, -1, 0 and 1. *)
Lemma literal_values :
  lit_2_0f = F32_2 /\ lit_m1 = F32_m1 /\ lit_0 = F32_0 /\ lit_1 = F32_1.
Proof. repeat split; reflexivity. Qed.

Lemma uv_of_bits_values b0 b1 :
  uv_of_bits b0 b1 =
  Vec2 (if b0 then F32_2 else F32_0) (if b1 then F32_2 else F32_0).
Proof. destruct b0, b1; reflexivity. Qed.

Lemma position_of_uv_values b0 b1 :
  position_of_uv (uv_of_bits b0 b1) =
  Vec4 (if b0 then F32_3 else F32_m1) (if b1 then F32_3 else F32_m1)
       F32_0 F32_1.
Proof. destruct b0, b1; vm_compute; reflexivity. Qed.

Lemma vertex_values idx :
  vertex idx =
  (Vec2 (if Z.testbit idx 0 then F32_2 else F32_0)
        (if Z.testbit idx 1 then F32_2 else F32_0),
   Vec4 (if Z.testbit idx 0 then F32_3 else F32_m1)
        (if Z.testbit idx 1 then F32_3 else F32_m1)
        F32_0 F32_1).
Proof.
  unfold vertex; cbv zeta.
  rewrite position_of_uv_values, uv_of_bits_values. reflexivity.
Qed.

(** The outputs of an invocation, component by component. *)
Lemma shader_outputs_values idx (σ : gmap string value) :
  shader_outputs idx σ =
  Some (Vec2 (if Z.testbit idx 0 then F32_2 else F32_0)
             (if Z.testbit idx 1 then F32_2 else F32_0),
        Vec4 (if Z.testbit idx 0 then F32_3 else F32_m1)
             (if Z.testbit idx 1 then F32_3 else F32_m1)
             F32_0 F32_1).
Proof. rewrite shader_outputs_closed_form, vertex_values. reflexivity. Qed.

Lemma full_screen_draw_values (σ : gmap string value) :
  full_screen_draw σ =
  Some [ (Vec2 F32_0 F32_0, Vec4 F32_m1 F32_m1 F32_0 F32_1);
         (Vec2 F32_2 F32_0, Vec4 F32_3 F32_m1 F32_0 F32_1);
         (Vec2 F32_0 F32_2, Vec4 F32_m1 F32_3 F32_0 F32_1) ].
Proof. unfold full_screen_draw. rewrite run_map_vertex. reflexivity. Qed.

(** Carrying out the addition of [-1.] in [double] gives the same position
    components as carrying it out in [float]. *)
Lemma scale_bias_in_double_agrees b :
  scale_bias_in_double (Float.of_Z Float.binary32 (bit2 b)) =
  Float.add Float.binary32
    (Float.mul Float.binary32 (Float.of_Z Float.binary32 (bit2 b)) lit_2_0f)
    lit_m1.
Proof. destruct b; vm_compute; reflexivity. Qed.

(** ** Triangles *)

Section Triangle.
Local Open Scope R_scope.

Lemma point_neq (a b c d : R) : a <> c \/ b <> d -> (a, b) <> (c, d).
Proof. intros [H|H] [= -> ->]; apply H; reflexivity. Qed.

(** A point that passes the edge-function test of a counter-clockwise
    triangle is a convex combination of its vertices. *)
Lemma in_triangle_edge_test (a b c p : point) :
  0 < edge a b c -> edge_test a b c p -> in_triangle a b c p.
Proof.
  destruct a as [ax ay], b as [bx by'], c as [cx cy], p as [px py].
  unfold edge_test, in_triangle, edge; cbn [fst snd].
  intros Hpos (Hab & Hbc & Hca).
  set (d := (bx - ax) * (cy - ay) - (by' - ay) * (cx - ax)) in *.
  exists (((cx - bx) * (py - by') - (cy - by') * (px - bx)) / d),
         (((ax - cx) * (py - cy) - (ay - cy) * (px - cx)) / d),
         (((bx - ax) * (py - ay) - (by' - ay) * (px - ax)) / d).
  assert (Hd : d <> 0) by lra.
  assert (Hinv : 0 < / d) by (apply Rinv_0_lt_compat; exact Hpos).
  repeat split.
  - apply Rmult_le_pos; [exact Hbc | lra].
  - apply Rmult_le_pos; [exact Hca | lra].
  - apply Rmult_le_pos; [exact Hab | lra].
  - unfold d in *; field; exact Hd.
  - unfold d in *; field; exact Hd.
  - unfold d in *; field; exact Hd.
Qed.

End Triangle.
(** ** The output table *)

(** C1.  For the indices 0, 1 and 2 the shader produces exactly the outputs of
    the table: index 0 gives UV (0,0) and position (-1,-1,0,1), index 1 gives
    UV (2,0) and position (3,-1,0,1), index 2 gives UV (0,2) and position
    (-1,3,0,1).  The outputs are the binary32 numbers [F32_0], [F32_1],
    [F32_2], [F32_3] and [F32_m1], whose values are exactly 0, 1, 2, 3
    and -1. *)
Theorem output_table (σ : gmap string value) :
  shader_outputs 0 σ =
    Some (Vec2 F32_0 F32_0, Vec4 F32_m1 F32_m1 F32_0 F32_1) /\
  shader_outputs 1 σ =
    Some (Vec2 F32_2 F32_0, Vec4 F32_3 F32_m1 F32_0 F32_1) /\
  shader_outputs 2 σ =
    Some (Vec2 F32_0 F32_2, Vec4 F32_m1 F32_3 F32_0 F32_1) /\
  (Float.to_R F32_0 = 0 /\ Float.to_R F32_1 = 1 /\ Float.to_R F32_2 = 2 /\
   Float.to_R F32_3 = 3 /\ Float.to_R F32_m1 = -1)%R.
Proof.
  rewrite !shader_outputs_values. cbn [Z.testbit Pos.testbit].
  repeat split; apply to_R_constants.
Qed.

(** ** The position derived from the UV coordinate *)

(** C3.  For every valid index the clip-space position satisfies
    position.xy = UV * 2.0 - 1.0, both as the binary32 computation and, with
    no rounding error, over the reals; a UV component lies in [0,2] and its
    position component in [-1,3], 0 being sent to -1 and 2 to 3;
    position.z = 0.0 and position.w = 1.0. *)
Theorem position_from_uv idx (σ : gmap string value) :
  valid_index idx ->
  exists uv pos,
    shader_outputs idx σ = Some (uv, pos) /\
    v4x pos = Float.sub Float.binary32
                (Float.mul Float.binary32 (v2x uv) F32_2) F32_1 /\
    v4y pos = Float.sub Float.binary32
                (Float.mul Float.binary32 (v2y uv) F32_2) F32_1 /\
    (Float.to_R (v4x pos) = Float.to_R (v2x uv) * 2 - 1 /\
     Float.to_R (v4y pos) = Float.to_R (v2y uv) * 2 - 1 /\
     0 <= Float.to_R (v2x uv) <= 2 /\ 0 <= Float.to_R (v2y uv) <= 2 /\
     -1 <= Float.to_R (v4x pos) <= 3 /\ -1 <= Float.to_R (v4y pos) <= 3 /\
     (Float.to_R (v2x uv) = 0 -> Float.to_R (v4x pos) = -1) /\
     (Float.to_R (v2x uv) = 2 -> Float.to_R (v4x pos) = 3) /\
     (Float.to_R (v2y uv) = 0 -> Float.to_R (v4y pos) = -1) /\
     (Float.to_R (v2y uv) = 2 -> Float.to_R (v4y pos) = 3))%R /\
    v4z pos = F32_0 /\ v4w pos = F32_1 /\
    Float.to_R (v4z pos) = 0%R /\ Float.to_R (v4w pos) = 1%R.
Proof.
  intros _. eexists _, _. split; [apply shader_outputs_values|].
  cbn [v2x v2y v4x v4y v4z v4w].
  destruct (Z.testbit idx 0), (Z.testbit idx 1);
    (split; [reflexivity|]); (split; [reflexivity|]);
    autorewrite with f32; repeat split; try reflexivity; lra.
Qed.

Lemma position_from_uv_witness :
  valid_index 1 /\
  exists uv pos,
    shader_outputs 1 ∅ = Some (uv, pos) /\
    v4x pos = Float.sub Float.binary32
                (Float.mul Float.binary32 (v2x uv) F32_2) F32_1 /\
    v4y pos = Float.sub Float.binary32
                (Float.mul Float.binary32 (v2y uv) F32_2) F32_1 /\
    (Float.to_R (v4x pos) = Float.to_R (v2x uv) * 2 - 1 /\
     Float.to_R (v4y pos) = Float.to_R (v2y uv) * 2 - 1 /\
     0 <= Float.to_R (v2x uv) <= 2 /\ 0 <= Float.to_R (v2y uv) <= 2 /\
     -1 <= Float.to_R (v4x pos) <= 3 /\ -1 <= Float.to_R (v4y pos) <= 3 /\
     (Float.to_R (v2x uv) = 0 -> Float.to_R (v4x pos) = -1) /\
     (Float.to_R (v2x uv) = 2 -> Float.to_R (v4x pos) = 3) /\
     (Float.to_R (v2y uv) = 0 -> Float.to_R (v4y pos) = -1) /\
     (Float.to_R (v2y uv) = 2 -> Float.to_R (v4y pos) = 3))%R /\
    v4z pos = F32_0 /\ v4w pos = F32_1 /\
    Float.to_R (v4z pos) = 0%R /\ Float.to_R (v4w pos) = 1%R.
Proof.
  split; [unfold valid_index; lia|].
  apply (position_from_uv 1 ∅). unfold valid_index; lia.
Defined.

(** ** The derivation of the UV coordinate *)

(** C4.  The UV coordinate the shader writes is [(a, b)] of the derivation,
    converted to floating point without rounding error; for index 0 it is
    (0,0), for index 1 (2,0) and for index 2 (0,2). *)
Theorem uv_bit_manipulation index (σ : gmap string value) :
  (exists uv pos,
     shader_outputs index σ = Some (uv, pos) /\
     uv = vec2_of_ints (fst (uv_derivation_spec index))
                       (snd (uv_derivation_spec index)) /\
     Float.to_R (v2x uv) = IZR (fst (uv_derivation_spec index)) /\
     Float.to_R (v2y uv) = IZR (snd (uv_derivation_spec index))) /\
  uv_derivation_spec 0 = (0, 0) /\
  uv_derivation_spec 1 = (2, 0) /\
  uv_derivation_spec 2 = (0, 2).
Proof.
  split; [|repeat split].
  rewrite shader_outputs_closed_form. unfold vertex; cbv zeta.
  eexists _, _. split; [reflexivity|].
  unfold uv_derivation_spec; cbn [fst snd].
  rewrite !land_2_testbit, Z.shiftl_spec by lia.
  change (1 - 1) with 0. split; [reflexivity|].
  rewrite uv_of_bits_values; cbn [v2x v2y].
  destruct (Z.testbit index 0), (Z.testbit index 1);
    cbn [bit2]; autorewrite with f32; split; reflexivity.
Qed.

(** ** Purity *)

(** C5.  For every valid index the outputs are a function of the index alone:
    two evaluations from any two stores give identical UV and position; the
    result is [vertex idx]; run among other invocations on the same
    variables, whatever their indices, the invocation still yields
    [vertex idx]; and [n] invocations in a row (1 or 1000) yield [vertex idx]
    every time. *)
Theorem pure_deterministic idx (σ σ' σ0 : gmap string value)
    (before after : list Z) (n : nat) :
  valid_index idx ->
  shader_outputs idx σ = shader_outputs idx σ' /\
  shader_outputs idx σ = Some (vertex idx) /\
  (exists outs,
     run (before ++ idx :: after) σ0 = Some outs /\
     outs !! length before = Some (vertex idx)) /\
  run (repeat idx n) σ = Some (repeat (vertex idx) n).
Proof.
  intros _. split; [apply shader_outputs_store_irrelevant|].
  split; [apply shader_outputs_closed_form|]. split.
  - eexists. split; [apply run_map_vertex|].
    rewrite map_app. cbn [map].
    rewrite lookup_app_r by (rewrite length_map; lia).
    rewrite length_map, Nat.sub_diag. reflexivity.
  - rewrite run_map_vertex, map_repeat. reflexivity.
Qed.

Lemma pure_deterministic_witness :
  valid_index 2 /\
  shader_outputs 2 ∅ = shader_outputs 2 {[ out_uv := VInt 7 ]} /\
  shader_outputs 2 ∅ = Some (vertex 2) /\
  (exists outs,
     run ([0; 5] ++ 2 :: [1]) {[ out_uv := VInt 7 ]} = Some outs /\
     outs !! length [0; 5] = Some (vertex 2)) /\
  run (repeat 2 1000) ∅ = Some (repeat (vertex 2) 1000).
Proof.
  split; [unfold valid_index; lia|].
  apply (pure_deterministic 2 ∅ {[ out_uv := VInt 7 ]} {[ out_uv := VInt 7 ]}
           [0; 5] [1] 1000).
  unfold valid_index; lia.
Defined.

(** ** Frame *)

(** C7.  An invocation writes the UV interpolant and the clip-space position
    and nothing else: both variables hold a value of their type afterwards,
    every other variable holds what it held before, and no variable other
    than these two is created. *)
Theorem writes_exactly_two_outputs idx (σ σ' : gmap string value) :
  main idx σ = Some σ' ->
  (exists uv, σ' !! out_uv = Some (VVec2 uv)) /\
  (exists pos, σ' !! glvert_Output_Position = Some (VVec4 pos)) /\
  (forall x, x <> out_uv -> x <> glvert_Output_Position ->
             σ' !! x = σ !! x) /\
  dom σ' = {[ out_uv; glvert_Output_Position ]} ∪ dom σ.
Proof.
  rewrite main_closed_form. intros [= <-]. repeat split.
  - eexists.
    rewrite (lookup_insert_ne _ glvert_Output_Position out_uv)
      by (symmetry; apply out_uv_neq_position).
    apply lookup_insert_eq.
  - eexists. apply lookup_insert_eq.
  - intros x Huv Hpos. rewrite !lookup_insert_ne by congruence. reflexivity.
  - rewrite !dom_insert_L. apply set_eq; intros x.
    rewrite !elem_of_union, !elem_of_singleton. tauto.
Qed.

Lemma writes_exactly_two_outputs_witness :
  let σ : gmap string value :=
    {[ "glvert_Output.PointSize" := VFloat F32_1 ]} in
  let σ' : gmap string value :=
    <[glvert_Output_Position := VVec4 (Vec4 F32_3 F32_m1 F32_0 F32_1)]>
      (<[out_uv := VVec2 (Vec2 F32_2 F32_0)]> σ) in
  main 1 σ = Some σ' /\
  (exists uv, σ' !! out_uv = Some (VVec2 uv)) /\
  (exists pos, σ' !! glvert_Output_Position = Some (VVec4 pos)) /\
  (forall x, x <> out_uv -> x <> glvert_Output_Position ->
             σ' !! x = σ !! x) /\
  dom σ' = {[ out_uv; glvert_Output_Position ]} ∪ dom σ.
Proof.
  intros σ σ'.
  assert (H : main 1 σ = Some σ') by (vm_compute; reflexivity).
  split; [exact H|].
  exact (writes_exactly_two_outputs 1 σ σ' H).
Defined.

(** ** Totality *)

(** C8.  For every valid index the invocation cannot fail: the shift is
    defined, [main] returns a store, and that store holds a UV and a position
    all of whose components are finite binary32 numbers (no infinity, no
    NaN). *)
Theorem cannot_fail idx (σ : gmap string value) :
  valid_index idx ->
  (exists a, Int32.shl idx 1 = Some a) /\
  (exists σ', main idx σ = Some σ') /\
  exists uv pos,
    shader_outputs idx σ = Some (uv, pos) /\
    vec2_finite uv = true /\ vec4_finite pos = true /\
    vec2_valid uv = true /\ vec4_valid pos = true.
Proof.
  intros _. split; [eexists; reflexivity|].
  split; [eexists; apply main_closed_form|].
  eexists _, _. split; [apply shader_outputs_values|].
  destruct (Z.testbit idx 0), (Z.testbit idx 1); repeat split; reflexivity.
Qed.

Lemma cannot_fail_witness :
  valid_index 0 /\
  (exists a, Int32.shl 0 1 = Some a) /\
  (exists σ', main 0 (∅ : gmap string value) = Some σ') /\
  exists uv pos,
    shader_outputs 0 ∅ = Some (uv, pos) /\
    vec2_finite uv = true /\ vec4_finite pos = true /\
    vec2_valid uv = true /\ vec4_valid pos = true.
Proof.
  split; [unfold valid_index; lia|].
  apply (cannot_fail 0 ∅). unfold valid_index; lia.
Defined.

(** ** Indices outside the draw *)

(** C9.  For every index, also outside {0,1,2}, the outputs are those of the
    index modulo 4: they depend only on its two low-order bits.  Each UV
    component is 0 or 2, each of position.x and position.y is -1 or 3,
    position.z is 0 and position.w is 1; index 3 yields UV (2,2) and position
    (3,3,0,1). *)
Theorem outputs_depend_on_low_bits k (σ : gmap string value) :
  shader_outputs k σ = shader_outputs (k mod 4) σ /\
  (exists uv pos,
     shader_outputs k σ = Some (uv, pos) /\
     (Float.to_R (v2x uv) = 0 \/ Float.to_R (v2x uv) = 2)%R /\
     (Float.to_R (v2y uv) = 0 \/ Float.to_R (v2y uv) = 2)%R /\
     (Float.to_R (v4x pos) = -1 \/ Float.to_R (v4x pos) = 3)%R /\
     (Float.to_R (v4y pos) = -1 \/ Float.to_R (v4y pos) = 3)%R /\
     v4z pos = F32_0 /\ v4w pos = F32_1 /\
     Float.to_R (v4z pos) = 0%R /\ Float.to_R (v4w pos) = 1%R) /\
  shader_outputs 3 σ =
    Some (Vec2 F32_2 F32_2, Vec4 F32_3 F32_3 F32_0 F32_1) /\
  (Float.to_R F32_2 = 2 /\ Float.to_R F32_3 = 3 /\
   Float.to_R F32_0 = 0 /\ Float.to_R F32_1 = 1)%R.
Proof.
  split; [|split; [|split]].
  - rewrite !shader_outputs_closed_form. unfold vertex.
    rewrite !testbit_mod_4 by lia. reflexivity.
  - eexists _, _. split; [apply shader_outputs_values|].
    cbn [v2x v2y v4x v4y v4z v4w].
    destruct (Z.testbit k 0), (Z.testbit k 1);
      autorewrite with f32; repeat split; auto.
  - rewrite shader_outputs_values. reflexivity.
  - autorewrite with f32. repeat split; reflexivity.
Qed.

(** ** The triangle of a full-screen draw *)

Section Coverage.
Local Open Scope R_scope.

(** C2.  The triangle of the three positions of a draw has the vertices
    (-1,-1), (3,-1) and (-1,3), and every point of the clip box
    [-1,1] x [-1,1] lies inside it or on its boundary: it is a convex
    combination of the vertices, and it passes the edge-function
    point-in-triangle test. *)
Theorem triangle_covers_clip_box (σ : gmap string value)
    (uv0 uv1 uv2 : vec2) (p0 p1 p2 : vec4) (q : point) :
  full_screen_draw σ = Some [(uv0, p0); (uv1, p1); (uv2, p2)] ->
  in_box (-1) 1 q ->
  clip_point p0 = (-1, -1) /\
  clip_point p1 = (3, -1) /\
  clip_point p2 = (-1, 3) /\
  in_triangle (clip_point p0) (clip_point p1) (clip_point p2) q /\
  edge_test (clip_point p0) (clip_point p1) (clip_point p2) q.
Proof.
  rewrite full_screen_draw_values. intros [= ? ? ? ? ? ?]; subst.
  destruct q as [x y]. unfold in_box; cbn [fst snd]. intros [Hx Hy].
  unfold clip_point; cbn [v4x v4y]. autorewrite with f32.
  assert (Htest : edge_test (-1, -1) (3, -1) (-1, 3) (x, y))
    by (unfold edge_test, edge; cbn [fst snd]; repeat split; lra).
  repeat split; try apply Htest.
  apply in_triangle_edge_test; [|exact Htest].
  unfold edge; cbn [fst snd]; lra.
Qed.

Lemma triangle_covers_clip_box_witness :
  full_screen_draw ∅ =
    Some [ (Vec2 F32_0 F32_0, Vec4 F32_m1 F32_m1 F32_0 F32_1);
           (Vec2 F32_2 F32_0, Vec4 F32_3 F32_m1 F32_0 F32_1);
           (Vec2 F32_0 F32_2, Vec4 F32_m1 F32_3 F32_0 F32_1) ] /\
  in_box (-1) 1 (1, 1) /\
  in_triangle (clip_point (Vec4 F32_m1 F32_m1 F32_0 F32_1))
              (clip_point (Vec4 F32_3 F32_m1 F32_0 F32_1))
              (clip_point (Vec4 F32_m1 F32_3 F32_0 F32_1)) (1, 1).
Proof.
  assert (Hbox : in_box (-1) 1 (1, 1))
    by (unfold in_box; cbn [fst snd]; lra).
  split; [reflexivity|]. split; [exact Hbox|].
  apply (triangle_covers_clip_box ∅
           (Vec2 F32_0 F32_0) (Vec2 F32_2 F32_0) (Vec2 F32_0 F32_2)
           (Vec4 F32_m1 F32_m1 F32_0 F32_1)
           (Vec4 F32_3 F32_m1 F32_0 F32_1)
           (Vec4 F32_m1 F32_3 F32_0 F32_1) (1, 1));
    [reflexivity | exact Hbox].
Defined.

(** C6.  The UV triangle of a draw has the vertices (0,0), (2,0) and (0,2).
    Its hypotenuse, the segment from (2,0) to (0,2), passes through the far
    corner (1,1) of the unit square and meets the square nowhere else, and
    the triangle strictly contains the unit square [0,1] x [0,1]: every
    point of the square is in the triangle, and the triangle has a point
    outside the square. *)
Theorem uv_triangle_contains_unit_square (σ : gmap string value)
    (uv0 uv1 uv2 : vec2) (p0 p1 p2 : vec4) (q : point) :
  full_screen_draw σ = Some [(uv0, p0); (uv1, p1); (uv2, p2)] ->
  in_box 0 1 q ->
  uv_point uv0 = (0, 0) /\
  uv_point uv1 = (2, 0) /\
  uv_point uv2 = (0, 2) /\
  on_segment (uv_point uv1) (uv_point uv2) (1, 1) /\
  in_triangle (uv_point uv0) (uv_point uv1) (uv_point uv2) q /\
  (on_segment (uv_point uv1) (uv_point uv2) q -> q = (1, 1)) /\
  (exists r, in_triangle (uv_point uv0) (uv_point uv1) (uv_point uv2) r /\
             ~ in_box 0 1 r).
Proof.
  rewrite full_screen_draw_values. intros [= ? ? ? ? ? ?]; subst.
  destruct q as [x y]. unfold in_box; cbn [fst snd]. intros [Hx Hy].
  unfold uv_point; cbn [v2x v2y]. autorewrite with f32.
  split; [reflexivity|]. split; [reflexivity|]. split; [reflexivity|].
  split; [|split; [|split]].
  - exists (1 / 2). cbn [fst snd]. repeat split; lra.
  - exists (1 - x / 2 - y / 2), (x / 2), (y / 2).
    cbn [fst snd]. repeat split; lra.
  - intros (t & Ht & Hqx & Hqy). cbn [fst snd] in Hqx, Hqy.
    f_equal; lra.
  - exists (2, 0). split.
    + exists 0, 1, 0. cbn [fst snd]. repeat split; lra.
    + cbn [fst snd]. lra.
Qed.

Lemma uv_triangle_contains_unit_square_witness :
  full_screen_draw ∅ =
    Some [ (Vec2 F32_0 F32_0, Vec4 F32_m1 F32_m1 F32_0 F32_1);
           (Vec2 F32_2 F32_0, Vec4 F32_3 F32_m1 F32_0 F32_1);
           (Vec2 F32_0 F32_2, Vec4 F32_m1 F32_3 F32_0 F32_1) ] /\
  in_box 0 1 (1, 1) /\
  in_triangle (uv_point (Vec2 F32_0 F32_0)) (uv_point (Vec2 F32_2 F32_0))
              (uv_point (Vec2 F32_0 F32_2)) (1, 1).
Proof.
  assert (Hbox : in_box 0 1 (1, 1))
    by (unfold in_box; cbn [fst snd]; lra).
  split; [reflexivity|]. split; [exact Hbox|].
  apply (uv_triangle_contains_unit_square ∅
           (Vec2 F32_0 F32_0) (Vec2 F32_2 F32_0) (Vec2 F32_0 F32_2)
           (Vec4 F32_m1 F32_m1 F32_0 F32_1)
           (Vec4 F32_3 F32_m1 F32_0 F32_1)
           (Vec4 F32_m1 F32_3 F32_0 F32_1) (1, 1));
    [reflexivity | exact Hbox].
Defined.

(** C10.  The three positions of a draw are pairwise distinct and not
    collinear: the triangle (-1,-1), (3,-1), (-1,3) has area exactly 8, so
    the draw never produces a zero-area primitive. *)
Theorem triangle_non_degenerate (σ : gmap string value)
    (uv0 uv1 uv2 : vec2) (p0 p1 p2 : vec4) :
  full_screen_draw σ = Some [(uv0, p0); (uv1, p1); (uv2, p2)] ->
  clip_point p0 = (-1, -1) /\
  clip_point p1 = (3, -1) /\
  clip_point p2 = (-1, 3) /\
  clip_point p0 <> clip_point p1 /\
  clip_point p1 <> clip_point p2 /\
  clip_point p0 <> clip_point p2 /\
  ~ collinear (clip_point p0) (clip_point p1) (clip_point p2) /\
  area (clip_point p0) (clip_point p1) (clip_point p2) = 8 /\
  area (clip_point p0) (clip_point p1) (clip_point p2) <> 0.
Proof.
  rewrite full_screen_draw_values. intros [= ? ? ? ? ? ?]; subst.
  unfold clip_point; cbn [v4x v4y]. autorewrite with f32.
  assert (Hedge : edge (-1, -1) (3, -1) (-1, 3) = 16)
    by (unfold edge; cbn [fst snd]; lra).
  assert (Harea : area (-1, -1) (3, -1) (-1, 3) = 8).
  { unfold area. rewrite Hedge, Rabs_pos_eq by lra. lra. }
  repeat split; try (apply point_neq; lra).
  - unfold collinear. rewrite Hedge. lra.
  - exact Harea.
  - rewrite Harea. lra.
Qed.

Lemma triangle_non_degenerate_witness :
  full_screen_draw ∅ =
    Some [ (Vec2 F32_0 F32_0, Vec4 F32_m1 F32_m1 F32_0 F32_1);
           (Vec2 F32_2 F32_0, Vec4 F32_3 F32_m1 F32_0 F32_1);
           (Vec2 F32_0 F32_2, Vec4 F32_m1 F32_3 F32_0 F32_1) ] /\
  area (clip_point (Vec4 F32_m1 F32_m1 F32_0 F32_1))
       (clip_point (Vec4 F32_3 F32_m1 F32_0 F32_1))
       (clip_point (Vec4 F32_m1 F32_3 F32_0 F32_1)) = 8.
Proof.
  split; [reflexivity|].
  apply (triangle_non_degenerate ∅
           (Vec2 F32_0 F32_0) (Vec2 F32_2 F32_0) (Vec2 F32_0 F32_2)
           (Vec4 F32_m1 F32_m1 F32_0 F32_1)
           (Vec4 F32_3 F32_m1 F32_0 F32_1)
           (Vec4 F32_m1 F32_3 F32_0 F32_1)).
  reflexivity.
Defined.

End Coverage.

(** * Further properties of the shader *)

(** ** Composition of invocations *)

(** The two low bits of an index determine it modulo 4. *)
Lemma mod_4_eq_of_bits k k' :
  Z.testbit k 0 = Z.testbit k' 0 -> Z.testbit k 1 = Z.testbit k' 1 ->
  k mod 4 = k' mod 4.
Proof.
  intros H0 H1. apply Z.bits_inj'; intros n Hn. change 4 with (2 ^ 2).
  destruct (Z.lt_ge_cases n 2) as [Hlt|Hge].
  - rewrite !Z.mod_pow2_bits_low by lia.
    assert (Hcase : n = 0 \/ n = 1) by lia.
    destruct Hcase as [-> | ->]; assumption.
  - rewrite !Z.mod_pow2_bits_high by lia. reflexivity.
Qed.

(** X1.  Assignments overwrite: an invocation run on the store another
    invocation left behaves as on the original store, whatever the two
    indices, and running the same invocation again changes nothing. *)
Theorem last_invocation_wins i j (σ σ1 : gmap string value) :
  main i σ = Some σ1 ->
  main j σ1 = main j σ /\ main i σ1 = Some σ1.
Proof.
  rewrite !main_closed_form. intros [= <-].
  split; f_equal; apply map_eq; intros x;
    rewrite !lookup_insert; repeat case_decide; reflexivity.
Qed.

Lemma last_invocation_wins_witness :
  let σ : gmap string value :=
    {[ "glvert_Output.PointSize" := VFloat F32_1 ]} in
  let σ1 : gmap string value :=
    <[glvert_Output_Position := VVec4 (Vec4 F32_3 F32_m1 F32_0 F32_1)]>
      (<[out_uv := VVec2 (Vec2 F32_2 F32_0)]> σ) in
  main 1 σ = Some σ1 /\ main 2 σ1 = main 2 σ /\ main 1 σ1 = Some σ1.
Proof.
  intros σ σ1.
  assert (H : main 1 σ = Some σ1) by (vm_compute; reflexivity).
  split; [exact H|].
  exact (last_invocation_wins 1 2 σ σ1 H).
Defined.

(** Indices that agree modulo 4 give the same outputs, from any stores. *)
Lemma shader_outputs_mod_4 k k' (σ σ' : gmap string value) :
  k mod 4 = k' mod 4 -> shader_outputs k σ = shader_outputs k' σ'.
Proof.
  intros H. rewrite !shader_outputs_values.
  rewrite <- (testbit_mod_4 k 0), <- (testbit_mod_4 k 1) by lia.
  rewrite H, !testbit_mod_4 by lia. reflexivity.
Qed.

(** X2.  Two invocations have the same outputs exactly when their indices
    agree modulo 4: the four residues give four different vertices. *)
Theorem outputs_equal_iff_low_bits k k' (σ σ' : gmap string value) :
  shader_outputs k σ = shader_outputs k' σ' <-> k mod 4 = k' mod 4.
Proof.
  split; [|apply shader_outputs_mod_4].
  rewrite !shader_outputs_values.
  intros H. apply mod_4_eq_of_bits.
  - revert H. destruct (Z.testbit k 0), (Z.testbit k' 0);
      intros H; try reflexivity; discriminate H.
  - revert H. destruct (Z.testbit k 1), (Z.testbit k' 1);
      intros H; try reflexivity; discriminate H.
Qed.

Lemma outputs_equal_iff_low_bits_witness :
  6 mod 4 = 2 mod 4 /\
  shader_outputs 6 ∅ = shader_outputs 2 {[ out_uv := VInt 7 ]}.
Proof.
  split; [reflexivity|].
  apply (proj2 (outputs_equal_iff_low_bits 6 2 ∅ {[ out_uv := VInt 7 ]})).
  reflexivity.
Defined.

(** X3.  The outputs are those of the 32-bit pattern of the index, and an
    index read as signed or as unsigned (differing by 2^32) gives the same
    outputs: the type of the built-in does not matter. *)
Theorem signedness_irrelevant k (σ : gmap string value) :
  shader_outputs (Int32.wrap k) σ = shader_outputs k σ /\
  shader_outputs (k - Int32.modulus) σ = shader_outputs k σ /\
  shader_outputs (-1) σ = shader_outputs (Int32.modulus - 1) σ.
Proof.
  assert (Hmod : Int32.modulus = 4 * 2 ^ 30) by reflexivity.
  split; [|split]; apply shader_outputs_mod_4.
  - unfold Int32.wrap, Int32.modulus, Int32.width.
    apply mod_4_eq_of_bits; apply Z.mod_pow2_bits_low; lia.
  - rewrite Hmod.
    replace (k - 4 * 2 ^ 30) with (k + (- 2 ^ 30) * 4) by lia.
    apply Z.mod_add. lia.
  - reflexivity.
Qed.

(** X4.  The position is the same whether [-1.] is added in [float] or the
    product is widened to [double], added there and converted back. *)
Theorem double_addition_same_position idx (σ : gmap string value) uv pos :
  shader_outputs idx σ = Some (uv, pos) ->
  v4x pos = scale_bias_in_double (v2x uv) /\
  v4y pos = scale_bias_in_double (v2y uv).
Proof.
  rewrite shader_outputs_closed_form. unfold vertex; cbv zeta.
  intros [= <- <-].
  unfold position_of_uv, vec4_of_vec2, vec2_add_scalar, vec2_mul_scalar,
    uv_of_bits, vec2_of_ints; cbn [v2x v2y v4x v4y].
  rewrite !scale_bias_in_double_agrees. split; reflexivity.
Qed.

Lemma double_addition_same_position_witness :
  shader_outputs 1 ∅ =
    Some (Vec2 F32_2 F32_0, Vec4 F32_3 F32_m1 F32_0 F32_1) /\
  F32_3 = scale_bias_in_double F32_2 /\
  F32_m1 = scale_bias_in_double F32_0.
Proof.
  split; [reflexivity|].
  apply (double_addition_same_position 1 ∅
           (Vec2 F32_2 F32_0) (Vec4 F32_3 F32_m1 F32_0 F32_1)).
  reflexivity.
Defined.

(** ** Interpolation and orientation *)

Section Rasterization.
Local Open Scope R_scope.

(** At every vertex, whatever the index, the position is the UV coordinate
    scaled by 2 and shifted by -1, at depth 0 and with w = 1. *)
Lemma vertex_affine idx (σ : gmap string value) uv pos :
  shader_outputs idx σ = Some (uv, pos) ->
  clip_point pos = (2 * fst (uv_point uv) - 1, 2 * snd (uv_point uv) - 1) /\
  Float.to_R (v4z pos) = 0 /\ Float.to_R (v4w pos) = 1.
Proof.
  rewrite shader_outputs_values.
  generalize (Z.testbit idx 0) (Z.testbit idx 1). intros b0 b1 [= <- <-].
  unfold clip_point, uv_point; cbn [v2x v2y v4x v4y v4z v4w fst snd].
  destruct b0, b1; autorewrite with f32; repeat split; f_equal; lra.
Qed.

(** X5.  For any three invocations and any barycentric weights of sum 1, the
    interpolated position is the interpolated UV scaled by 2 and shifted
    by -1, so the point lies in the clip box exactly when its UV lies in the
    unit square; the interpolated w is 1 and the interpolated depth 0. *)
Theorem interpolated_position_follows_uv i0 i1 i2
    (σ0 σ1 σ2 : gmap string value)
    (uv0 uv1 uv2 : vec2) (p0 p1 p2 : vec4) (l0 l1 l2 : R) :
  shader_outputs i0 σ0 = Some (uv0, p0) ->
  shader_outputs i1 σ1 = Some (uv1, p1) ->
  shader_outputs i2 σ2 = Some (uv2, p2) ->
  l0 + l1 + l2 = 1 ->
  fst (interpolate l0 l1 l2 (clip_point p0) (clip_point p1) (clip_point p2))
  = 2 * fst (interpolate l0 l1 l2
               (uv_point uv0) (uv_point uv1) (uv_point uv2)) - 1 /\
  snd (interpolate l0 l1 l2 (clip_point p0) (clip_point p1) (clip_point p2))
  = 2 * snd (interpolate l0 l1 l2
               (uv_point uv0) (uv_point uv1) (uv_point uv2)) - 1 /\
  (in_box (-1) 1
     (interpolate l0 l1 l2 (clip_point p0) (clip_point p1) (clip_point p2))
   <-> in_box 0 1
     (interpolate l0 l1 l2 (uv_point uv0) (uv_point uv1) (uv_point uv2))) /\
  interpolate_scalar l0 l1 l2 (Float.to_R (v4w p0)) (Float.to_R (v4w p1))
    (Float.to_R (v4w p2)) = 1 /\
  interpolate_scalar l0 l1 l2 (Float.to_R (v4z p0)) (Float.to_R (v4z p1))
    (Float.to_R (v4z p2)) = 0.
Proof.
  intros H0 H1 H2 Hsum.
  destruct (vertex_affine _ _ _ _ H0) as (-> & -> & ->).
  destruct (vertex_affine _ _ _ _ H1) as (-> & -> & ->).
  destruct (vertex_affine _ _ _ _ H2) as (-> & -> & ->).
  destruct (uv_point uv0) as [x0 y0], (uv_point uv1) as [x1 y1],
    (uv_point uv2) as [x2 y2].
  unfold in_box, interpolate, interpolate_scalar; cbn [fst snd].
  assert (Hx : l0 * (2 * x0 - 1) + l1 * (2 * x1 - 1) + l2 * (2 * x2 - 1)
               = 2 * (l0 * x0 + l1 * x1 + l2 * x2) - 1)
    by (replace l0 with (1 - l1 - l2) by lra; ring).
  assert (Hy : l0 * (2 * y0 - 1) + l1 * (2 * y1 - 1) + l2 * (2 * y2 - 1)
               = 2 * (l0 * y0 + l1 * y1 + l2 * y2) - 1)
    by (replace l0 with (1 - l1 - l2) by lra; ring).
  rewrite Hx, Hy. repeat split; lra.
Qed.

Lemma interpolated_position_follows_uv_witness :
  shader_outputs 0 ∅ =
    Some (Vec2 F32_0 F32_0, Vec4 F32_m1 F32_m1 F32_0 F32_1) /\
  shader_outputs 1 ∅ =
    Some (Vec2 F32_2 F32_0, Vec4 F32_3 F32_m1 F32_0 F32_1) /\
  shader_outputs 3 ∅ =
    Some (Vec2 F32_2 F32_2, Vec4 F32_3 F32_3 F32_0 F32_1) /\
  1 / 4 + 1 / 2 + 1 / 4 = 1 /\
  interpolate_scalar (1 / 4) (1 / 2) (1 / 4)
    (Float.to_R F32_1) (Float.to_R F32_1) (Float.to_R F32_1) = 1.
Proof.
  assert (Hsum : 1 / 4 + 1 / 2 + 1 / 4 = 1) by lra.
  split; [reflexivity|]. split; [reflexivity|]. split; [reflexivity|].
  split; [exact Hsum|].
  apply (interpolated_position_follows_uv 0 1 3 ∅ ∅ ∅
           (Vec2 F32_0 F32_0) (Vec2 F32_2 F32_0) (Vec2 F32_2 F32_2)
           (Vec4 F32_m1 F32_m1 F32_0 F32_1)
           (Vec4 F32_3 F32_m1 F32_0 F32_1)
           (Vec4 F32_3 F32_3 F32_0 F32_1)
           (1 / 4) (1 / 2) (1 / 4));
    [reflexivity | reflexivity | reflexivity | exact Hsum].
Defined.

(** X6.  At every point [c] of the clip box the triangle of a draw has
    exactly one set of barycentric weights; they are non-negative, and the UV
    interpolated with them is ((c.x + 1) / 2, (c.y + 1) / 2), a point of the
    unit square. *)
Theorem viewport_uv_is_unit_square (σ : gmap string value)
    (uv0 uv1 uv2 : vec2) (p0 p1 p2 : vec4) (c : point) :
  full_screen_draw σ = Some [(uv0, p0); (uv1, p1); (uv2, p2)] ->
  in_box (-1) 1 c ->
  exists l0 l1 l2 : R,
    0 <= l0 /\ 0 <= l1 /\ 0 <= l2 /\ l0 + l1 + l2 = 1 /\
    interpolate l0 l1 l2 (clip_point p0) (clip_point p1) (clip_point p2)
    = c /\
    interpolate l0 l1 l2 (uv_point uv0) (uv_point uv1) (uv_point uv2)
    = ((fst c + 1) / 2, (snd c + 1) / 2) /\
    in_box 0 1
      (interpolate l0 l1 l2 (uv_point uv0) (uv_point uv1) (uv_point uv2)) /\
    (forall m0 m1 m2 : R,
        m0 + m1 + m2 = 1 ->
        interpolate m0 m1 m2 (clip_point p0) (clip_point p1) (clip_point p2)
        = c ->
        m0 = l0 /\ m1 = l1 /\ m2 = l2).
Proof.
  rewrite full_screen_draw_values. intros [= ? ? ? ? ? ?]; subst.
  destruct c as [x y]. unfold in_box; cbn [fst snd]. intros [Hx Hy].
  unfold clip_point, uv_point, interpolate, interpolate_scalar;
    cbn [v2x v2y v4x v4y fst snd]. autorewrite with f32.
  exists (1 - (x + 1) / 4 - (y + 1) / 4), ((x + 1) / 4), ((y + 1) / 4).
  repeat split; try lra; try (f_equal; lra).
  all: intros; match goal with
               | H : (_, _) = (_, _) |- _ => injection H as Hmx Hmy
               end; lra.
Qed.

Lemma viewport_uv_is_unit_square_witness :
  full_screen_draw ∅ =
    Some [ (Vec2 F32_0 F32_0, Vec4 F32_m1 F32_m1 F32_0 F32_1);
           (Vec2 F32_2 F32_0, Vec4 F32_3 F32_m1 F32_0 F32_1);
           (Vec2 F32_0 F32_2, Vec4 F32_m1 F32_3 F32_0 F32_1) ] /\
  in_box (-1) 1 (1, -1) /\
  exists l0 l1 l2 : R,
    0 <= l0 /\ 0 <= l1 /\ 0 <= l2 /\ l0 + l1 + l2 = 1 /\
    interpolate l0 l1 l2 (clip_point (Vec4 F32_m1 F32_m1 F32_0 F32_1))
      (clip_point (Vec4 F32_3 F32_m1 F32_0 F32_1))
      (clip_point (Vec4 F32_m1 F32_3 F32_0 F32_1))
    = (1, -1).
Proof.
  assert (Hbox : in_box (-1) 1 (1, -1))
    by (unfold in_box; cbn [fst snd]; lra).
  assert (Hdraw : full_screen_draw ∅ =
    Some [ (Vec2 F32_0 F32_0, Vec4 F32_m1 F32_m1 F32_0 F32_1);
           (Vec2 F32_2 F32_0, Vec4 F32_3 F32_m1 F32_0 F32_1);
           (Vec2 F32_0 F32_2, Vec4 F32_m1 F32_3 F32_0 F32_1) ])
    by reflexivity.
  split; [exact Hdraw|]. split; [exact Hbox|].
  destruct (viewport_uv_is_unit_square ∅
              (Vec2 F32_0 F32_0) (Vec2 F32_2 F32_0) (Vec2 F32_0 F32_2)
              (Vec4 F32_m1 F32_m1 F32_0 F32_1)
              (Vec4 F32_3 F32_m1 F32_0 F32_1)
              (Vec4 F32_m1 F32_3 F32_0 F32_1) (1, -1)
              Hdraw Hbox)
    as (l0 & l1 & l2 & H0 & H1 & H2 & Hsum & Hc & _).
  exists l0, l1, l2. repeat split; assumption.
Defined.

(** X7.  For any three invocations the edge function of the positions is
    four times that of the UV coordinates: the positions have the winding of
    the UV coordinates, and are collinear exactly when the UV coordinates
    are. *)
Theorem clip_orientation_follows_uv i0 i1 i2
    (σ0 σ1 σ2 : gmap string value)
    (uv0 uv1 uv2 : vec2) (p0 p1 p2 : vec4) :
  shader_outputs i0 σ0 = Some (uv0, p0) ->
  shader_outputs i1 σ1 = Some (uv1, p1) ->
  shader_outputs i2 σ2 = Some (uv2, p2) ->
  edge (clip_point p0) (clip_point p1) (clip_point p2)
  = 4 * edge (uv_point uv0) (uv_point uv1) (uv_point uv2) /\
  (0 < edge (clip_point p0) (clip_point p1) (clip_point p2)
   <-> 0 < edge (uv_point uv0) (uv_point uv1) (uv_point uv2)) /\
  (collinear (clip_point p0) (clip_point p1) (clip_point p2)
   <-> collinear (uv_point uv0) (uv_point uv1) (uv_point uv2)).
Proof.
  intros H0 H1 H2.
  destruct (vertex_affine _ _ _ _ H0) as (-> & _).
  destruct (vertex_affine _ _ _ _ H1) as (-> & _).
  destruct (vertex_affine _ _ _ _ H2) as (-> & _).
  destruct (uv_point uv0) as [x0 y0], (uv_point uv1) as [x1 y1],
    (uv_point uv2) as [x2 y2].
  unfold collinear, edge; cbn [fst snd].
  assert (Hedge :
    (2 * x1 - 1 - (2 * x0 - 1)) * (2 * y2 - 1 - (2 * y0 - 1))
    - (2 * y1 - 1 - (2 * y0 - 1)) * (2 * x2 - 1 - (2 * x0 - 1))
    = 4 * ((x1 - x0) * (y2 - y0) - (y1 - y0) * (x2 - x0))) by ring.
  rewrite Hedge. repeat split; lra.
Qed.

Lemma clip_orientation_follows_uv_witness :
  shader_outputs 2 ∅ =
    Some (Vec2 F32_0 F32_2, Vec4 F32_m1 F32_3 F32_0 F32_1) /\
  shader_outputs 1 ∅ =
    Some (Vec2 F32_2 F32_0, Vec4 F32_3 F32_m1 F32_0 F32_1) /\
  shader_outputs 0 ∅ =
    Some (Vec2 F32_0 F32_0, Vec4 F32_m1 F32_m1 F32_0 F32_1) /\
  edge (clip_point (Vec4 F32_m1 F32_3 F32_0 F32_1))
       (clip_point (Vec4 F32_3 F32_m1 F32_0 F32_1))
       (clip_point (Vec4 F32_m1 F32_m1 F32_0 F32_1))
  = 4 * edge (uv_point (Vec2 F32_0 F32_2)) (uv_point (Vec2 F32_2 F32_0))
             (uv_point (Vec2 F32_0 F32_0)).
Proof.
  split; [reflexivity|]. split; [reflexivity|]. split; [reflexivity|].
  apply (clip_orientation_follows_uv 2 1 0 ∅ ∅ ∅
           (Vec2 F32_0 F32_2) (Vec2 F32_2 F32_0) (Vec2 F32_0 F32_0)
           (Vec4 F32_m1 F32_3 F32_0 F32_1)
           (Vec4 F32_3 F32_m1 F32_0 F32_1)
           (Vec4 F32_m1 F32_m1 F32_0 F32_1));
    reflexivity.
Defined.

(** X8.  In the order of the indices 0, 1, 2 the triangle of a draw is wound
    counter-clockwise in both UV and clip coordinates (x to the right, y
    upwards): the edge function of its vertices is +4 in UV space and +16 in
    clip space. *)
Theorem draw_winding (σ : gmap string value)
    (uv0 uv1 uv2 : vec2) (p0 p1 p2 : vec4) :
  full_screen_draw σ = Some [(uv0, p0); (uv1, p1); (uv2, p2)] ->
  edge (uv_point uv0) (uv_point uv1) (uv_point uv2) = 4 /\
  edge (clip_point p0) (clip_point p1) (clip_point p2) = 16 /\
  edge (clip_point p0) (clip_point p2) (clip_point p1) = -16.
Proof.
  rewrite full_screen_draw_values. intros [= ? ? ? ? ? ?]; subst.
  unfold clip_point, uv_point, edge; cbn [v2x v2y v4x v4y fst snd].
  autorewrite with f32. repeat split; lra.
Qed.

Lemma draw_winding_witness :
  full_screen_draw ∅ =
    Some [ (Vec2 F32_0 F32_0, Vec4 F32_m1 F32_m1 F32_0 F32_1);
           (Vec2 F32_2 F32_0, Vec4 F32_3 F32_m1 F32_0 F32_1);
           (Vec2 F32_0 F32_2, Vec4 F32_m1 F32_3 F32_0 F32_1) ] /\
  edge (clip_point (Vec4 F32_m1 F32_m1 F32_0 F32_1))
       (clip_point (Vec4 F32_3 F32_m1 F32_0 F32_1))
       (clip_point (Vec4 F32_m1 F32_3 F32_0 F32_1)) = 16.
Proof.
  split; [reflexivity|].
  apply (draw_winding ∅
           (Vec2 F32_0 F32_0) (Vec2 F32_2 F32_0) (Vec2 F32_0 F32_2)
           (Vec4 F32_m1 F32_m1 F32_0 F32_1)
           (Vec4 F32_3 F32_m1 F32_0 F32_1)
           (Vec4 F32_m1 F32_3 F32_0 F32_1)).
  reflexivity.
Defined.

End Rasterization.
